(** * slimit: the ECMAScript unparser (slimit/visitors/ecmavisitor.py)

    A shallow embedding of [ECMAVisitor]: the dispatcher [visit], the
    fallback [generic_visit] and the table of formatting rules, with the
    visitor's only field, [indent_level], threaded as explicit state and
    Python exceptions as an error result. *)

From Stdlib Require Import ZArith List String Ascii Bool Lia.
Import ListNotations.

Open Scope Z_scope.
Open Scope list_scope.
Open Scope string_scope.

(** The Python literal '\n'. *)
Definition nl : string := String.String (ascii_of_nat 10) EmptyString.

(** [sep.join(parts)]. *)
Fixpoint join (sep : string) (parts : list string) : string :=
  match parts with
  | [] => ""
  | [p] => p
  | p :: rest => p ++ sep ++ join sep rest
  end.

(** [c * n] for a one-character string [c]; empty when [n <= 0]. *)
Fixpoint repeat_str (c : string) (n : nat) : string :=
  match n with
  | O => ""
  | S k => c ++ repeat_str c k
  end.

(** [needle in hay]. *)
Fixpoint contains (needle hay : string) : bool :=
  if String.prefix needle hay then true
  else match hay with
       | EmptyString => false
       | String.String _ rest => contains needle rest
       end.

(** ** The objects the visitor is handed

    [slimit.ast] is not among the sources; the kinds and their fields are
    the ones the rules read.  A field that holds a child holds any object:
    [PyNone] is Python's [None], and [Other cls] is an instance of class
    [cls] that carries none of the fields the rules read (an instance of a
    class without a rule, or a malformed instance of a class with one).
    Scalars ([value], [op]) are strings, [postfix] is a boolean, statement
    lists are lists; node objects are plain objects and cannot be iterated. *)
Scheme All for list.

Module ast.

Inductive node : Type :=
| PyNone
| Program (children : list node)
| Block (children : list node)
| VarStatement (children : list node)
| VarDecl (identifier initializer : node)
| Identifier (value : string)
| Assign (op : string) (left right : node)
| Number (value : string)
| Comma (left right : node)
| EmptyStatement (value : string)
| If (predicate consequent alternative : node)
| Boolean (value : string)
| For (init cond count statement : node)
| ForIn (item iterable statement : node)
| BinOp (op : string) (left right : node)
| UnaryOp (op : string) (value : node) (postfix : bool)
| ExprStatement (expr : node)
| DoWhile (predicate statement : node)
| While (predicate statement : node)
| Null (value : string)
| String (value : string)
| Continue (identifier : node)
| Break (identifier : node)
| Return (expr : node)
| With (expr statement : node)
| Label (identifier statement : node)
| Switch (expr : node) (cases : list node) (default : node)
| Case (expr : node) (elements : list node)
| Default (elements : list node)
| Throw (expr : node)
| Debugger (value : string)
| Try (statements catch fin : node)
| Catch (identifier elements : node)
| Finally (elements : node)
| Other (cls : string).

(** [node.__class__.__name__]. *)
Definition class_name (n : node) : string :=
  match n with
  | PyNone => "NoneType"
  | Program _ => "Program"
  | Block _ => "Block"
  | VarStatement _ => "VarStatement"
  | VarDecl _ _ => "VarDecl"
  | Identifier _ => "Identifier"
  | Assign _ _ _ => "Assign"
  | Number _ => "Number"
  | Comma _ _ => "Comma"
  | EmptyStatement _ => "EmptyStatement"
  | If _ _ _ => "If"
  | Boolean _ => "Boolean"
  | For _ _ _ _ => "For"
  | ForIn _ _ _ => "ForIn"
  | BinOp _ _ _ => "BinOp"
  | UnaryOp _ _ _ => "UnaryOp"
  | ExprStatement _ => "ExprStatement"
  | DoWhile _ _ => "DoWhile"
  | While _ _ => "While"
  | Null _ => "Null"
  | String _ => "String"
  | Continue _ => "Continue"
  | Break _ => "Break"
  | Return _ => "Return"
  | With _ _ => "With"
  | Label _ _ => "Label"
  | Switch _ _ _ => "Switch"
  | Case _ _ => "Case"
  | Default _ => "Default"
  | Throw _ => "Throw"
  | Debugger _ => "Debugger"
  | Try _ _ _ => "Try"
  | Catch _ _ => "Catch"
  | Finally _ => "Finally"
  | Other cls => cls
  end.

(** [n is None]. *)
Definition is_None (n : node) : bool :=
  match n with
  | PyNone => true
  | _ => false
  end.

(** [isinstance(n, classes)], on class names (the model has no subclasses). *)
Definition isinstance (n : node) (classes : list string) : bool :=
  existsb (String.eqb (class_name n)) classes.

End ast.

(** ** Exceptions, results and the visitor's state *)

Inductive exn : Type :=
| AttributeError (cls attr : string)
| TypeError (msg : string).

Inductive result (A : Type) : Type :=
| Ok (a : A)
| Raise (e : exn).
Arguments Ok {A} a.
Arguments Raise {A} e.

(** The visitor object: its only field is the indentation counter. *)
Record ECMAVisitor : Type := mkECMAVisitor { indent_level : Z }.

(** [ECMAVisitor.__init__]. *)
Definition init : ECMAVisitor := mkECMAVisitor 0.

(** A method body: it reads and updates [self] and returns or raises. *)
Definition M (A : Type) : Type := ECMAVisitor -> result A * ECMAVisitor.

Definition ret {A} (a : A) : M A := fun self => (Ok a, self).

Definition raise {A} (e : exn) : M A := fun self => (Raise e, self).

Definition bind {A B} (m : M A) (k : A -> M B) : M B :=
  fun self =>
    match m self with
    | (Ok a, self') => k a self'
    | (Raise e, self') => (Raise e, self')
    end.

Declare Scope visitor_scope.
Delimit Scope visitor_scope with visitor.
Notation "x <- m ;; k" := (bind m (fun x => k))
  (at level 100, m at next level, right associativity) : visitor_scope.
Notation "m ;; k" := (bind m (fun _ => k))
  (at level 100, right associativity) : visitor_scope.
Open Scope visitor_scope.

(** [self.indent_level += d]. *)
Definition add_indent (d : Z) : M unit :=
  fun self => (Ok tt, mkECMAVisitor (indent_level self + d)).

(** The text [' ' * level]. *)
Definition indent_text (level : Z) : string := repeat_str " " (Z.to_nat level).

(** [ECMAVisitor._make_indent]. *)
Definition make_indent : M string :=
  fun self => (Ok (indent_text (indent_level self)), self).

(** [f(x) for x in xs], consumed from left to right; the first exception
    ends the traversal. *)
Fixpoint mapM {A B} (f : A -> M B) (xs : list A) : M (list B) :=
  match xs with
  | [] => ret []
  | x :: rest => y <- f x ;; ys <- mapM f rest ;; ret (y :: ys)
  end.

(** [for x in xs: s += f(x)]. *)
Fixpoint for_each {A} (f : A -> M string) (xs : list A) (s : string) : M string :=
  match xs with
  | [] => ret s
  | x :: rest => r <- f x ;; for_each f rest (s ++ r)
  end.

(** Reading an attribute the object does not have. *)
Definition no_attribute {A} (n : ast.node) (attr : string) : M A :=
  raise (AttributeError (ast.class_name n) attr).

(** [iter(n)] on an object that is not a list. *)
Definition not_iterable {A} (n : ast.node) : M A :=
  raise (TypeError ("'" ++ ast.class_name n ++ "' object is not iterable")).

(** ** The visitor *)

Section Visitor.

(** The address CPython prints in the default representation of an object. *)
Variable addr_of : ast.node -> string.

(** Modelled from the spec: the raw representation [repr(node)] of an object.
    [slimit.ast] is not among the sources; its classes are taken to inherit
    Python's [object.__repr__], which names the class and the address of the
    object, so that the representation of a node embeds its kind name. *)
Definition py_repr (n : ast.node) : string :=
  if ast.is_None n then "None"
  else "<slimit.ast." ++ ast.class_name n ++ " object at " ++ addr_of n ++ ">".

(** The names under which the rules are registered on the visitor. *)
Inductive rule : Type :=
| r_Program | r_Block | r_VarStatement | r_VarDecl | r_Identifier | r_Assign
| r_Number | r_Comma | r_EmptyStatement | r_If | r_Boolean | r_For | r_ForIn
| r_BinOp | r_UnaryOp | r_ExprStatement | r_DoWhile | r_While | r_Null
| r_String | r_Continue | r_Break | r_Return | r_With | r_Label | r_Switch
| r_Case | r_Default | r_Throw | r_Debugger | r_Try | r_Catch | r_Finally.

Definition methods : list (string * rule) :=
  [ ("visit_Program", r_Program); ("visit_Block", r_Block);
    ("visit_VarStatement", r_VarStatement); ("visit_VarDecl", r_VarDecl);
    ("visit_Identifier", r_Identifier); ("visit_Assign", r_Assign);
    ("visit_Number", r_Number); ("visit_Comma", r_Comma);
    ("visit_EmptyStatement", r_EmptyStatement); ("visit_If", r_If);
    ("visit_Boolean", r_Boolean); ("visit_For", r_For);
    ("visit_ForIn", r_ForIn); ("visit_BinOp", r_BinOp);
    ("visit_UnaryOp", r_UnaryOp); ("visit_ExprStatement", r_ExprStatement);
    ("visit_DoWhile", r_DoWhile); ("visit_While", r_While);
    ("visit_Null", r_Null); ("visit_String", r_String);
    ("visit_Continue", r_Continue); ("visit_Break", r_Break);
    ("visit_Return", r_Return); ("visit_With", r_With);
    ("visit_Label", r_Label); ("visit_Switch", r_Switch);
    ("visit_Case", r_Case); ("visit_Default", r_Default);
    ("visit_Throw", r_Throw); ("visit_Debugger", r_Debugger);
    ("visit_Try", r_Try); ("visit_Catch", r_Catch);
    ("visit_Finally", r_Finally) ].

(** [getattr(self, method, None)] restricted to the rules. *)
Fixpoint getattr (method : string) (table : list (string * rule)) : option rule :=
  match table with
  | [] => None
  | (name, r) :: rest => if String.eqb method name then Some r else getattr method rest
  end.

(** Whether the visitor has a rule for the class named [cls]. *)
Definition has_rule (cls : string) : bool :=
  match getattr ("visit_" ++ cls) methods with
  | Some _ => true
  | None => false
  end.

(** [generic_visit]: 'GEN: %r' % node. *)
Definition generic_visit (node : ast.node) : M string :=
  ret ("GEN: " ++ py_repr node).

(** The rules take the dispatcher as [visit].  The dispatcher hands a rule
    only objects of the rule's own class, so a rule meets the fields of its
    class or an object without them ([ast.Other]); [visit_Identifier],
    [visit_Case] and [visit_Default] are also called directly, on whatever
    object the field holds, and read the attributes by name. *)
Section Rules.

Variable visit : ast.node -> M string.

Definition visit_Program (node : ast.node) : M string :=
  match node with
  | ast.Program children =>
      parts <- mapM visit children ;;
      ret (join nl parts)
  | _ => no_attribute node "children"
  end.

Definition visit_Block (node : ast.node) : M string :=
  i <- make_indent ;;
  let s := i ++ "{" ++ nl in
  add_indent 2 ;;
  match node with
  | ast.Block children =>
      parts <- mapM visit children ;;
      let s := s ++ join nl parts in
      add_indent (-2) ;;
      i <- make_indent ;;
      ret (s ++ i ++ nl ++ "}")
  | _ => no_attribute node "children"
  end.

Definition visit_VarStatement (node : ast.node) : M string :=
  s <- make_indent ;;
  match node with
  | ast.VarStatement children =>
      parts <- mapM visit children ;;
      ret (s ++ "var " ++ join ", " parts ++ ";")
  | _ => no_attribute node "children"
  end.

Definition visit_VarDecl (node : ast.node) : M string :=
  match node with
  | ast.VarDecl identifier initializer =>
      name <- visit identifier ;;
      if negb (ast.is_None initializer)
      then value <- visit initializer ;;
           ret (join "" [name; " = " ++ value])
      else ret (join "" [name])
  | _ => no_attribute node "identifier"
  end.

(** [visit_Identifier] returns [node.value]; the kinds below are those with
    a [value].  That of a [UnaryOp] is its operand, an object, which the
    callers that format the result with '%s' turn into its [str], the
    default representation. *)
Definition visit_Identifier (node : ast.node) : M string :=
  match node with
  | ast.Identifier value | ast.Number value | ast.EmptyStatement value
  | ast.Boolean value | ast.Null value | ast.String value
  | ast.Debugger value => ret value
  | ast.UnaryOp _ value _ => ret (py_repr value)
  | _ => no_attribute node "value"
  end.

Definition visit_Assign (node : ast.node) : M string :=
  s <- make_indent ;;
  match node with
  | ast.Assign op left_ right_ =>
      l <- visit left_ ;;
      r <- visit right_ ;;
      ret (s ++ l ++ " " ++ op ++ " " ++ r)
  | _ => no_attribute node "left"
  end.

Definition visit_Number (node : ast.node) : M string :=
  match node with
  | ast.Number value => ret value
  | _ => no_attribute node "value"
  end.

Definition visit_Comma (node : ast.node) : M string :=
  match node with
  | ast.Comma left_ right_ =>
      l <- visit left_ ;;
      r <- visit right_ ;;
      ret (l ++ ", " ++ r)
  | _ => no_attribute node "left"
  end.

Definition visit_EmptyStatement (node : ast.node) : M string :=
  s <- make_indent ;;
  match node with
  | ast.EmptyStatement value => ret (s ++ value)
  | _ => no_attribute node "value"
  end.

Definition visit_If (node : ast.node) : M string :=
  let s := "if (" in
  match node with
  | ast.If predicate consequent alternative =>
      s <- (if negb (ast.is_None predicate)
            then p <- visit predicate ;; ret (s ++ p)
            else ret s) ;;
      let s := s ++ ") " in
      c <- visit consequent ;;
      let s := s ++ c in
      if negb (ast.is_None alternative)
      then let s := s ++ " else " in
           a <- visit alternative ;;
           ret (s ++ a)
      else ret s
  | _ => no_attribute node "predicate"
  end.

Definition visit_Boolean (node : ast.node) : M string :=
  match node with
  | ast.Boolean value => ret value
  | _ => no_attribute node "value"
  end.

Definition visit_For (node : ast.node) : M string :=
  let s := "for (" in
  match node with
  | ast.For init cond count statement =>
      i <- visit init ;;
      let s := s ++ i in
      let s := if ast.isinstance init ["Assign"; "Comma"]
               then s ++ "; "
               else s ++ " " in
      s <- (if negb (ast.is_None cond)
            then c <- visit cond ;; ret (s ++ c)
            else ret s) ;;
      let s := s ++ "; " in
      s <- (if negb (ast.is_None count)
            then c <- visit count ;; ret (s ++ c)
            else ret s) ;;
      b <- visit statement ;;
      ret (s ++ ") " ++ b)
  | _ => no_attribute node "init"
  end.

Definition visit_ForIn (node : ast.node) : M string :=
  match node with
  | ast.ForIn item iterable statement =>
      let var := if ast.isinstance item ["VarDecl"] then "var " else "" in
      x <- visit item ;;
      y <- visit iterable ;;
      let s := "for (" ++ var ++ x ++ " in " ++ y ++ ") " in
      b <- visit statement ;;
      ret (s ++ b)
  | _ => no_attribute node "item"
  end.

Definition visit_BinOp (node : ast.node) : M string :=
  match node with
  | ast.BinOp op left_ right_ =>
      l <- visit left_ ;;
      r <- visit right_ ;;
      ret (l ++ " " ++ op ++ " " ++ r)
  | _ => no_attribute node "left"
  end.

Definition visit_UnaryOp (node : ast.node) : M string :=
  match node with
  | ast.UnaryOp op value postfix =>
      s <- visit value ;;
      if postfix then ret (s ++ op) else ret (op ++ s)
  | _ => no_attribute node "value"
  end.

Definition visit_ExprStatement (node : ast.node) : M string :=
  match node with
  | ast.ExprStatement expr =>
      e <- visit expr ;;
      ret (e ++ ";")
  | _ => no_attribute node "expr"
  end.

Definition visit_DoWhile (node : ast.node) : M string :=
  let s := "do " in
  match node with
  | ast.DoWhile predicate statement =>
      b <- visit statement ;;
      let s := s ++ b in
      p <- visit predicate ;;
      ret (s ++ " while (" ++ p ++ ");")
  | _ => no_attribute node "statement"
  end.

Definition visit_While (node : ast.node) : M string :=
  match node with
  | ast.While predicate statement =>
      p <- visit predicate ;;
      let s := "while (" ++ p ++ ") " in
      b <- visit statement ;;
      ret (s ++ b)
  | _ => no_attribute node "predicate"
  end.

Definition visit_Null (node : ast.node) : M string :=
  ret "null".

Definition visit_String (node : ast.node) : M string :=
  match node with
  | ast.String value => ret value
  | _ => no_attribute node "value"
  end.

Definition visit_Continue (node : ast.node) : M string :=
  s <- make_indent ;;
  match node with
  | ast.Continue identifier =>
      if negb (ast.is_None identifier)
      then label <- visit_Identifier identifier ;;
           ret (s ++ "continue " ++ label ++ ";")
      else ret (s ++ "continue;")
  | _ => no_attribute node "identifier"
  end.

Definition visit_Break (node : ast.node) : M string :=
  s <- make_indent ;;
  match node with
  | ast.Break identifier =>
      if negb (ast.is_None identifier)
      then label <- visit_Identifier identifier ;;
           ret (s ++ "break " ++ label ++ ";")
      else ret (s ++ "break;")
  | _ => no_attribute node "identifier"
  end.

Definition visit_Return (node : ast.node) : M string :=
  s <- make_indent ;;
  match node with
  | ast.Return expr =>
      if ast.is_None expr
      then ret (s ++ "return;")
      else e <- visit expr ;;
           ret (s ++ "return " ++ e ++ ";")
  | _ => no_attribute node "expr"
  end.

Definition visit_With (node : ast.node) : M string :=
  s <- make_indent ;;
  match node with
  | ast.With expr statement =>
      e <- visit expr ;;
      let s := s ++ "with (" ++ e ++ ") " in
      b <- visit statement ;;
      ret (s ++ b)
  | _ => no_attribute node "expr"
  end.

Definition visit_Label (node : ast.node) : M string :=
  i <- make_indent ;;
  match node with
  | ast.Label identifier statement =>
      name <- visit identifier ;;
      b <- visit statement ;;
      ret (i ++ name ++ ": " ++ b)
  | _ => no_attribute node "identifier"
  end.

(** Called by the dispatcher and by [visit_Switch] on every item of
    [cases]: [expr] is read first and [elements] after the increment. *)
Definition visit_Case (node : ast.node) : M string :=
  s <- make_indent ;;
  match node with
  | ast.ExprStatement expr | ast.Return expr | ast.With expr _
  | ast.Switch expr _ _ | ast.Case expr _ | ast.Throw expr =>
      e <- visit expr ;;
      let s := s ++ "case " ++ e ++ ":" ++ nl in
      add_indent 2 ;;
      match node with
      | ast.Case _ elements =>
          parts <- mapM visit elements ;;
          let elements := join nl parts in
          let s := if String.eqb elements "" then s else s ++ elements ++ nl in
          add_indent (-2) ;;
          ret s
      | _ => no_attribute node "elements"
      end
  | _ => no_attribute node "expr"
  end.

(** Called by the dispatcher and by [visit_Switch] on [default]; the
    counter is raised before [elements] is read. *)
Definition visit_Default (node : ast.node) : M string :=
  i <- make_indent ;;
  let s := i ++ "default:" ++ nl in
  add_indent 2 ;;
  match node with
  | ast.Case _ elements | ast.Default elements =>
      parts <- mapM visit elements ;;
      let s := s ++ join nl parts in
      add_indent (-2) ;;
      ret s
  | ast.Catch _ elements | ast.Finally elements => not_iterable elements
  | _ => no_attribute node "elements"
  end.

Definition visit_Switch (node : ast.node) : M string :=
  s <- make_indent ;;
  match node with
  | ast.Switch expr cases default =>
      e <- visit expr ;;
      let s := s ++ "switch (" ++ e ++ ") {" ++ nl in
      add_indent 2 ;;
      s <- for_each visit_Case cases s ;;
      s <- (if negb (ast.is_None default)
            then d <- visit_Default default ;; ret (s ++ d)
            else ret s) ;;
      add_indent (-2) ;;
      ret (s ++ nl ++ "}")
  | _ => no_attribute node "expr"
  end.

Definition visit_Throw (node : ast.node) : M string :=
  i <- make_indent ;;
  match node with
  | ast.Throw expr =>
      e <- visit expr ;;
      ret (i ++ "throw " ++ e ++ ";")
  | _ => no_attribute node "expr"
  end.

Definition visit_Debugger (node : ast.node) : M string :=
  match node with
  | ast.Debugger value => ret (value ++ ";")
  | _ => no_attribute node "value"
  end.

Definition visit_Try (node : ast.node) : M string :=
  i <- make_indent ;;
  let s := i ++ "try " in
  match node with
  | ast.Try statements catch fin =>
      b <- visit statements ;;
      let s := s ++ b in
      s <- (if negb (ast.is_None catch)
            then c <- visit catch ;; ret (s ++ " " ++ c)
            else ret s) ;;
      if negb (ast.is_None fin)
      then f <- visit fin ;; ret (s ++ " " ++ f)
      else ret s
  | _ => no_attribute node "statements"
  end.

Definition visit_Catch (node : ast.node) : M string :=
  s <- make_indent ;;
  match node with
  | ast.Catch identifier elements =>
      name <- visit identifier ;;
      b <- visit elements ;;
      ret (s ++ "catch (" ++ name ++ ") " ++ b)
  | _ => no_attribute node "identifier"
  end.

Definition visit_Finally (node : ast.node) : M string :=
  s <- make_indent ;;
  match node with
  | ast.Finally elements =>
      b <- visit elements ;;
      ret (s ++ "finally " ++ b)
  | _ => no_attribute node "elements"
  end.

(** The method bound to a registered name. *)
Definition call (r : rule) (node : ast.node) : M string :=
  match r with
  | r_Program => visit_Program node
  | r_Block => visit_Block node
  | r_VarStatement => visit_VarStatement node
  | r_VarDecl => visit_VarDecl node
  | r_Identifier => visit_Identifier node
  | r_Assign => visit_Assign node
  | r_Number => visit_Number node
  | r_Comma => visit_Comma node
  | r_EmptyStatement => visit_EmptyStatement node
  | r_If => visit_If node
  | r_Boolean => visit_Boolean node
  | r_For => visit_For node
  | r_ForIn => visit_ForIn node
  | r_BinOp => visit_BinOp node
  | r_UnaryOp => visit_UnaryOp node
  | r_ExprStatement => visit_ExprStatement node
  | r_DoWhile => visit_DoWhile node
  | r_While => visit_While node
  | r_Null => visit_Null node
  | r_String => visit_String node
  | r_Continue => visit_Continue node
  | r_Break => visit_Break node
  | r_Return => visit_Return node
  | r_With => visit_With node
  | r_Label => visit_Label node
  | r_Switch => visit_Switch node
  | r_Case => visit_Case node
  | r_Default => visit_Default node
  | r_Throw => visit_Throw node
  | r_Debugger => visit_Debugger node
  | r_Try => visit_Try node
  | r_Catch => visit_Catch node
  | r_Finally => visit_Finally node
  end.

End Rules.

(** [ECMAVisitor.visit]: the rule registered for the class name of [node],
    [generic_visit] when there is none. *)
Fixpoint visit (node : ast.node) {struct node} : M string :=
  match getattr ("visit_" ++ ast.class_name node) methods with
  | Some r => call visit r node
  | None => generic_visit node
  end.

End Visitor.

(** [ECMAVisitor().visit(tree)]: a render with a freshly constructed visitor. *)
Definition to_ecma (addr_of : ast.node -> string) (tree : ast.node) : result string :=
  fst (visit addr_of tree init).

(** ** Reasoning about method bodies *)

(** [post m self Q]: if [m], run on [self], returns, then [Q] holds of the
    value and of the visitor it leaves; nothing is said when it raises. *)
Definition post {A} (m : M A) (self : ECMAVisitor) (Q : A -> ECMAVisitor -> Prop) : Prop :=
  match m self with
  | (Ok a, self') => Q a self'
  | (Raise _, _) => True
  end.

(** [keeps m]: whenever [m] returns, the visitor is as it was. *)
Definition keeps {A} (m : M A) : Prop :=
  forall self, post m self (fun _ self' => self' = self).

(** What the induction on objects carries: the dispatcher and the three
    rules that are called directly on an object all restore the counter. *)
Definition balanced (addr_of : ast.node -> string) (n : ast.node) : Prop :=
  keeps (visit addr_of n) /\
  keeps (visit_Case (visit addr_of) n) /\
  keeps (visit_Default (visit addr_of) n) /\
  keeps (visit_Identifier addr_of n).




(** ** Predicates for the further properties *)

(** [runs m]: the method body returns, on every visitor. *)
Definition runs {A} (m : M A) : Prop :=
  forall self, exists a self', m self = (Ok a, self').

(** [renderable n]: every object that a render of [n] reaches is [None],
    an object of a class without a rule, or a node that carries the fields
    of its class; the label of a [Continue] or [Break] is [None] or an
    [Identifier], the cases of a [Switch] are [Case] nodes and its default
    is [None] or a [Default] node. *)
Fixpoint renderable (n : ast.node) : bool :=
  let label (x : ast.node) :=
    match x with ast.PyNone | ast.Identifier _ => true | _ => false end in
  match n with
  | ast.PyNone => true
  | ast.Other cls => negb (has_rule cls)
  | ast.Program children | ast.Block children | ast.VarStatement children =>
      forallb renderable children
  | ast.VarDecl identifier initializer =>
      renderable identifier && renderable initializer
  | ast.Identifier _ | ast.Number _ | ast.EmptyStatement _ | ast.Boolean _
  | ast.Null _ | ast.String _ | ast.Debugger _ => true
  | ast.Assign _ l r | ast.BinOp _ l r | ast.Comma l r =>
      renderable l && renderable r
  | ast.If predicate consequent alternative =>
      renderable predicate && renderable consequent && renderable alternative
  | ast.For init_ cond count statement =>
      renderable init_ && renderable cond && renderable count
      && renderable statement
  | ast.ForIn item iterable statement =>
      renderable item && renderable iterable && renderable statement
  | ast.UnaryOp _ value _ => renderable value
  | ast.ExprStatement expr | ast.Throw expr | ast.Return expr =>
      renderable expr
  | ast.DoWhile predicate statement | ast.While predicate statement =>
      renderable predicate && renderable statement
  | ast.Continue identifier | ast.Break identifier => label identifier
  | ast.With expr statement => renderable expr && renderable statement
  | ast.Label identifier statement =>
      renderable identifier && renderable statement
  | ast.Switch expr cases default =>
      renderable expr
      && forallb (fun c => match c with
                           | ast.Case _ _ => renderable c
                           | _ => false
                           end) cases
      && match default with
         | ast.PyNone => true
         | ast.Default _ => renderable default
         | _ => false
         end
  | ast.Case expr elements => renderable expr && forallb renderable elements
  | ast.Default elements => forallb renderable elements
  | ast.Try statements catch fin =>
      renderable statements && renderable catch && renderable fin
  | ast.Catch identifier elements =>
      renderable identifier && renderable elements
  | ast.Finally elements => renderable elements
  end.

(** What the induction on objects carries for [renderable] objects: the
    dispatcher returns, and so do the clause rules on a clause. *)
Definition total (addr_of : ast.node -> string) (n : ast.node) : Prop :=
  renderable n = true ->
  runs (visit addr_of n) /\
  match n with
  | ast.Case _ _ => runs (visit_Case (visit addr_of) n)
  | ast.Default _ => runs (visit_Default (visit addr_of) n)
  | _ => True
  end.

(** [outcome m self Qok Qerr]: [Qok] holds of the value and the visitor
    when [m] returns, [Qerr] of the exception and the visitor when it
    raises. *)
Definition outcome {A} (m : M A) (self : ECMAVisitor)
    (Qok : A -> ECMAVisitor -> Prop) (Qerr : exn -> ECMAVisitor -> Prop) : Prop :=
  match m self with
  | (Ok a, self') => Qok a self'
  | (Raise e, self') => Qerr e self'
  end.

(** [not_below m]: [m] leaves the visitor as it was when it returns, and
    with a counter that is not below the starting one when it raises. *)
Definition not_below {A} (m : M A) : Prop :=
  forall self,
    outcome m self (fun _ self' => self' = self)
      (fun _ self' => indent_level self <= indent_level self').

Definition not_below_all (addr_of : ast.node -> string) (n : ast.node) : Prop :=
  not_below (visit addr_of n) /\
  not_below (visit_Case (visit addr_of) n) /\
  not_below (visit_Default (visit addr_of) n) /\
  not_below (visit_Identifier addr_of n).

(** The kinds whose rule starts with [self._make_indent()]. *)
Definition own_indentation (n : ast.node) : bool :=
  match n with
  | ast.Block _ | ast.VarStatement _ | ast.Assign _ _ _
  | ast.EmptyStatement _ | ast.Continue _ | ast.Break _ | ast.Return _
  | ast.With _ _ | ast.Label _ _ | ast.Switch _ _ _ | ast.Case _ _
  | ast.Default _ | ast.Throw _ | ast.Try _ _ _ | ast.Catch _ _
  | ast.Finally _ => true
  | _ => false
  end.

(** The kinds of simple statements, whose rule closes the text with ';'. *)
Definition terminated (n : ast.node) : bool :=
  match n with
  | ast.VarStatement _ | ast.ExprStatement _ | ast.DoWhile _ _
  | ast.Continue _ | ast.Break _ | ast.Return _ | ast.Throw _
  | ast.Debugger _ => true
  | _ => false
  end.

(** ** Sample data for the closed statements *)

(** One assignment of addresses to objects. *)
Definition sample_addr : ast.node -> string := fun _ => "0x7f3a5c0d2e10".

Definition id_x : ast.node := ast.Identifier "x".

(** [var a, b = 1;] *)
Definition var_a_b_1 : ast.node :=
  ast.VarStatement
    [ ast.VarDecl (ast.Identifier "a") ast.PyNone;
      ast.VarDecl (ast.Identifier "b") (ast.Number "1") ].

(** ** Lemmas on method bodies *)

Lemma post_ret {A} (a : A) self (Q : A -> ECMAVisitor -> Prop) :
  Q a self -> post (ret a) self Q.
Proof. intro H; exact H. Qed.

Lemma post_raise {A} e self (Q : A -> ECMAVisitor -> Prop) :
  post (raise e) self Q.
Proof. exact I. Qed.

Lemma post_bind {A B} (m : M A) (k : A -> M B) self (Q : B -> ECMAVisitor -> Prop) :
  post m self (fun a self' => post (k a) self' Q) -> post (bind m k) self Q.
Proof.
  unfold post, bind. destruct (m self) as [[a | e] self']; auto.
Qed.

Lemma post_conseq {A} (m : M A) self (Q Q' : A -> ECMAVisitor -> Prop) :
  post m self Q -> (forall a self', Q a self' -> Q' a self') -> post m self Q'.
Proof.
  unfold post. destruct (m self) as [[a | e] self']; auto.
Qed.

Lemma post_make_indent self (Q : string -> ECMAVisitor -> Prop) :
  Q (indent_text (indent_level self)) self -> post make_indent self Q.
Proof. intro H; exact H. Qed.

Lemma post_add_indent d self (Q : unit -> ECMAVisitor -> Prop) :
  Q tt (mkECMAVisitor (indent_level self + d)) -> post (add_indent d) self Q.
Proof. intro H; exact H. Qed.

Lemma post_elim {A} (m : M A) self (Q : A -> ECMAVisitor -> Prop) a self' :
  post m self Q -> m self = (Ok a, self') -> Q a self'.
Proof. unfold post. intros H E. rewrite E in H. exact H. Qed.

Lemma keeps_mapM {A B} (f : A -> M B) (xs : list A) :
  Forall (fun x => keeps (f x)) xs -> keeps (mapM f xs).
Proof.
  induction 1 as [| x rest Hx _ IH]; intro self; simpl.
  - now apply post_ret.
  - apply post_bind. eapply post_conseq; [apply Hx |].
    intros y self' ->. apply post_bind.
    eapply post_conseq; [apply IH |].
    intros ys self' ->. now apply post_ret.
Qed.

Lemma keeps_for_each {A} (f : A -> M string) (xs : list A) :
  Forall (fun x => keeps (f x)) xs -> forall s, keeps (for_each f xs s).
Proof.
  induction 1 as [| x rest Hx _ IH]; intros s self; simpl.
  - now apply post_ret.
  - apply post_bind. eapply post_conseq; [apply Hx |].
    intros y self' ->. apply IH.
Qed.

Lemma list_all_Forall {A} (P Q : A -> Prop) (xs : list A) :
  (forall x, P x -> Q x) -> list_all A P xs -> Forall Q xs.
Proof.
  intros PQ H. induction H; constructor; auto.
Qed.

(** A round trip of the counter. *)
Lemma indent_round_trip self d :
  mkECMAVisitor (indent_level (mkECMAVisitor (indent_level self + d)) + - d) = self.
Proof.
  destruct self as [level]; simpl. f_equal. lia.
Qed.

Section Unfolding.

Variable addr_of : ast.node -> string.

Lemma visit_unfold node :
  visit addr_of node =
  match getattr ("visit_" ++ ast.class_name node) methods with
  | Some r => call addr_of (visit addr_of) r node
  | None => generic_visit addr_of node
  end.
Proof. destruct node; reflexivity. Qed.

Lemma visit_registered node r :
  getattr ("visit_" ++ ast.class_name node) methods = Some r ->
  visit addr_of node = call addr_of (visit addr_of) r node.
Proof. intro H. rewrite visit_unfold, H. reflexivity. Qed.

Lemma visit_unregistered node :
  has_rule (ast.class_name node) = false ->
  visit addr_of node = generic_visit addr_of node.
Proof.
  unfold has_rule. intro H. rewrite visit_unfold.
  destruct (getattr _ methods); [discriminate | reflexivity].
Qed.

End Unfolding.

(** ** The counter is restored whenever a rule returns *)

Ltac wp_step :=
  cbv beta iota zeta;
  lazymatch goal with
  | |- post (bind _ _) _ _ => apply post_bind
  | |- post (ret _) _ _ => apply post_ret
  | |- post (raise _) _ _ => apply post_raise
  | |- post (no_attribute _ _) _ _ => apply post_raise
  | |- post (not_iterable _) _ _ => apply post_raise
  | |- post make_indent _ _ => apply post_make_indent
  | |- post (add_indent _) _ _ => apply post_add_indent
  | |- post (if ?b then _ else _) _ _ => destruct b
  | |- post (mapM _ _) _ _ =>
      eapply post_conseq; [ apply keeps_mapM; eassumption | intros ? ? -> ]
  | |- post (for_each _ _ _) _ _ =>
      eapply post_conseq; [ apply keeps_for_each; eassumption | intros ? ? -> ]
  | |- post ?m _ _ =>
      eapply post_conseq;
      [ match goal with H : keeps m |- _ => apply H end | intros ? ? -> ]
  end.

Ltac wp_done :=
  cbv beta iota zeta;
  lazymatch goal with
  | |- @eq ECMAVisitor _ _ => simpl; try reflexivity; f_equal; lia
  end.

Ltac wp := repeat wp_step; try wp_done.

Ltac head_of t :=
  lazymatch t with
  | ?f _ => head_of f
  | _ => t
  end.

(** Unfold the rule at the head of the goal, and only that one. *)
Ltac unfold_rule :=
  cbv [call];
  lazymatch goal with
  | |- post ?m _ _ => let h := head_of m in unfold h
  end.

Ltac dispatch :=
  rewrite visit_unfold;
  lazymatch goal with
  | |- context [getattr ?name methods] =>
      let r := eval vm_compute in (getattr name methods) in
      change (getattr name methods) with r
  end;
  cbv beta iota.

Section Invariant.

Variable addr_of : ast.node -> string.

Lemma balanced_children (xs : list ast.node) :
  list_all ast.node (balanced addr_of) xs ->
  Forall (fun x => keeps (visit addr_of x)) xs /\
  Forall (fun x => keeps (visit_Case (visit addr_of) x)) xs.
Proof.
  intro H; split; eapply list_all_Forall; try exact H; intros x Hx; apply Hx.
Qed.

Ltac split_balanced :=
  repeat match goal with
         | H : balanced _ _ |- _ => destruct H as (? & ? & ? & ?)
         | H : list_all _ _ _ |- _ =>
             apply balanced_children in H; destruct H as (? & ?)
         end.

Lemma balanced_Other cls : balanced addr_of (ast.Other cls).
Proof.
  refine (conj _ (conj _ (conj _ _))); intros [level].
  - rewrite visit_unfold.
    destruct (getattr _ methods) as [r |].
    + destruct r; unfold_rule; wp.
    + unfold_rule; wp.
  - unfold_rule; wp.
  - unfold_rule; wp.
  - unfold_rule; wp.
Qed.

Lemma balanced_all (n : ast.node) : balanced addr_of n.
Proof.
  induction n using ast.node_ind;
    try apply balanced_Other;
    split_balanced;
    (refine (conj _ (conj _ (conj _ _))); intros [level];
     [dispatch | | | ]; unfold_rule; wp).
Qed.

Lemma visit_keeps node self self' text :
  visit addr_of node self = (Ok text, self') -> self' = self.
Proof.
  intro H. destruct (balanced_all node) as (K & _).
  exact (post_elim _ _ _ _ _ (K self) H).
Qed.

Lemma visit_returns node self text :
  fst (visit addr_of node self) = Ok text ->
  visit addr_of node self = (Ok text, self).
Proof.
  destruct (visit addr_of node self) as [r self'] eqn:E; simpl.
  intros ->. now rewrite (visit_keeps _ _ _ _ E).
Qed.

Lemma mapM_visit_keeps nodes self self' parts :
  mapM (visit addr_of) nodes self = (Ok parts, self') -> self' = self.
Proof.
  intro H.
  assert (K : keeps (mapM (visit addr_of) nodes)).
  { apply keeps_mapM, Forall_forall. intros n _. apply balanced_all. }
  exact (post_elim _ _ _ _ _ (K self) H).
Qed.

End Invariant.

(** ** Renders do not depend on addresses when no fallback is reached *)





Section AddressIndependence.

Variables a1 a2 : ast.node -> string.










End AddressIndependence.

(** ** Strings *)

Lemma append_assoc (a b c : string) : (a ++ b) ++ c = a ++ b ++ c.
Proof. induction a as [| ch a IH]; simpl; [reflexivity | now rewrite IH]. Qed.

Lemma prefix_append (a b : string) : String.prefix a (a ++ b) = true.
Proof.
  induction a as [| ch a IH]; simpl.
  - now destruct b.
  - destruct (ascii_dec ch ch) as [_ | ne]; [exact IH | now elim ne].
Qed.

Lemma contains_prefix (a b : string) :
  String.prefix a b = true -> contains a b = true.
Proof. intro H. destruct b; cbn [contains]; rewrite H; reflexivity. Qed.

Lemma contains_append_l (a b : string) : contains a (a ++ b) = true.
Proof. apply contains_prefix, prefix_append. Qed.

Lemma contains_self (a : string) : contains a a = true.
Proof.
  apply contains_prefix. induction a as [| ch a IH]; simpl; [reflexivity |].
  destruct (ascii_dec ch ch) as [_ | ne]; [exact IH | now elim ne].
Qed.

Lemma contains_append_r (a b c : string) :
  contains a b = true -> contains a (c ++ b) = true.
Proof.
  intro H. induction c as [| ch c IH]; cbn [append contains]; [exact H |].
  rewrite IH. now destruct (String.prefix a (String.String ch (c ++ b))).
Qed.

Lemma contains_middle (a b c : string) : contains b (a ++ b ++ c) = true.
Proof. apply contains_append_r, contains_append_l. Qed.

(** ** Scenario: an [If] over a one-statement [Block] *)



(** ** The indentation counter *)

(** C2, as stated, fails: when the rendering of an inner child raises, the
    counter is not restored.  A [Switch] whose case list holds [None],
    inside a [Block]: [visit_Case] raises on [None.expr] after both rules
    have raised the counter, and no rule lowers it again. *)
Lemma C2_counter_left_raised_on_failure :
  visit sample_addr (ast.Block [ast.Switch id_x [ast.PyNone] ast.PyNone]) init
  = (Raise (AttributeError "NoneType" "expr"), mkECMAVisitor 4)
  /\ indent_level
       (snd (visit sample_addr
               (ast.Block [ast.Switch id_x [ast.PyNone] ast.PyNone]) init))
     <> indent_level init.
Proof. split; [reflexivity | vm_compute; discriminate]. Qed.

(** C2, amended: for every node and every starting value of the counter,
    when a call to [visit] returns, the visitor's counter has the value it
    had when the call began. *)
Theorem C2_counter_restored_on_return
    (addr_of : ast.node -> string) (node : ast.node)
    (self self' : ECMAVisitor) (text : string) :
  visit addr_of node self = (Ok text, self') -> self' = self.
Proof.
  exact (visit_keeps addr_of node self self' text).
Qed.

Lemma C2_counter_restored_on_return_witness :
  visit sample_addr (ast.Block [ast.Return id_x]) (mkECMAVisitor 3)
  = (Ok ("   {" ++ nl ++ "     return x;   " ++ nl ++ "}"), mkECMAVisitor 3)
  /\ mkECMAVisitor 3 = mkECMAVisitor 3.
Proof.
  split; [reflexivity |].
  apply (C2_counter_restored_on_return sample_addr
           (ast.Block [ast.Return id_x]) (mkECMAVisitor 3) (mkECMAVisitor 3)
           ("   {" ++ nl ++ "     return x;   " ++ nl ++ "}")).
  reflexivity.
Defined.

(** ** The fallback *)

(** C3: for every node whose class has no registered rule, [visit] returns
    (it does not raise) the text 'GEN: ' followed by the node's raw
    representation; the text contains the marker, the raw representation
    and, through it, the node's kind name. *)
Theorem C3_unregistered_kind_falls_back
    (addr_of : ast.node -> string) (node : ast.node) (self : ECMAVisitor) :
  ast.is_None node = false ->
  has_rule (ast.class_name node) = false ->
  exists text,
    visit addr_of node self = (Ok text, self) /\
    text = "GEN: " ++ py_repr addr_of node /\
    contains "GEN: " text = true /\
    contains (ast.class_name node) text = true /\
    contains (py_repr addr_of node) text = true.
Proof.
  intros Hnode Hrule. exists ("GEN: " ++ py_repr addr_of node).
  rewrite (visit_unregistered addr_of node Hrule).
  repeat split.
  - apply contains_append_l.
  - unfold py_repr. rewrite Hnode.
    apply contains_append_r. apply contains_middle.
  - apply contains_append_r, contains_self.
Qed.

Lemma C3_unregistered_kind_falls_back_witness :
  ast.is_None (ast.Other "Regex") = false /\
  has_rule (ast.class_name (ast.Other "Regex")) = false /\
  exists text,
    visit sample_addr (ast.Other "Regex") init = (Ok text, init) /\
    text = "GEN: " ++ py_repr sample_addr (ast.Other "Regex") /\
    contains "GEN: " text = true /\
    contains (ast.class_name (ast.Other "Regex")) text = true /\
    contains (py_repr sample_addr (ast.Other "Regex")) text = true.
Proof.
  split; [reflexivity |]. split; [reflexivity |].
  apply (C3_unregistered_kind_falls_back sample_addr (ast.Other "Regex") init);
    reflexivity.
Defined.

(** ** Literals *)

(** C4: an [Identifier], [Number], [Boolean] or [String] node renders to
    exactly its stored text, and a [Null] node renders to "null" whatever
    it stores; the visitor is left as it was. *)
Theorem C4_literals_verbatim
    (addr_of : ast.node -> string) (value : string) (self : ECMAVisitor) :
  visit addr_of (ast.Identifier value) self = (Ok value, self) /\
  visit addr_of (ast.Number value) self = (Ok value, self) /\
  visit addr_of (ast.Boolean value) self = (Ok value, self) /\
  visit addr_of (ast.String value) self = (Ok value, self) /\
  visit addr_of (ast.Null value) self = (Ok "null", self).
Proof. repeat split; reflexivity. Qed.

(** ** [For] *)

(** C5: a [For] node renders to 'for (<init><sep><cond>; <count>) <body>',
    where <sep> is '; ' when [init] is an [Assign] or a [Comma] and a single
    space otherwise, and an absent [cond] or [count] renders as nothing. *)
Theorem C5_for_separator
    (addr_of : ast.node -> string) (init_ cond count statement : ast.node)
    (self : ECMAVisitor) (i c k b : string) :
  fst (visit addr_of init_ self) = Ok i ->
  (if ast.is_None cond then c = "" else fst (visit addr_of cond self) = Ok c) ->
  (if ast.is_None count then k = "" else fst (visit addr_of count self) = Ok k) ->
  fst (visit addr_of statement self) = Ok b ->
  visit addr_of (ast.For init_ cond count statement) self
  = (Ok ("for (" ++ i
         ++ (if ast.isinstance init_ ["Assign"; "Comma"] then "; " else " ")
         ++ c ++ "; " ++ k ++ ") " ++ b),
     self).
Proof.
  intros Hi Hc Hk Hb.
  apply visit_returns in Hi, Hb.
  rewrite (visit_registered addr_of (ast.For init_ cond count statement) r_For eq_refl).
  cbv [call visit_For]. unfold bind at 1. rewrite Hi.
  assert (Sep : forall s : string,
             (if ast.isinstance init_ ["Assign"; "Comma"]
              then s ++ "; " else s ++ " ")
             = s ++ (if ast.isinstance init_ ["Assign"; "Comma"]
                     then "; " else " ")).
  { intro s. now destruct (ast.isinstance init_ _). }
  rewrite Sep.
  destruct (ast.is_None cond); simpl negb; cbv iota.
  - subst c.
    destruct (ast.is_None count); simpl negb; cbv iota.
    + subst k. unfold bind, ret. rewrite Hb.
      rewrite !append_assoc. reflexivity.
    + apply visit_returns in Hk. unfold bind, ret. rewrite Hk, Hb.
      rewrite !append_assoc. reflexivity.
  - apply visit_returns in Hc.
    destruct (ast.is_None count); simpl negb; cbv iota.
    + subst k. unfold bind, ret. rewrite Hc, Hb.
      rewrite !append_assoc. reflexivity.
    + apply visit_returns in Hk. unfold bind, ret. rewrite Hc, Hk, Hb.
      rewrite !append_assoc. reflexivity.
Qed.

Lemma C5_for_separator_witness :
  fst (visit sample_addr (ast.Assign "=" id_x (ast.Number "0")) init)
  = Ok "x = 0" /\
  fst (visit sample_addr (ast.BinOp "<" id_x (ast.Number "3")) init)
  = Ok "x < 3" /\
  ("" : string) = "" /\
  fst (visit sample_addr (ast.EmptyStatement ";") init) = Ok ";" /\
  visit sample_addr
    (ast.For (ast.Assign "=" id_x (ast.Number "0"))
             (ast.BinOp "<" id_x (ast.Number "3"))
             ast.PyNone
             (ast.EmptyStatement ";")) init
  = (Ok "for (x = 0; x < 3; ) ;", init).
Proof.
  repeat (split; [reflexivity |]).
  apply (C5_for_separator sample_addr
           (ast.Assign "=" id_x (ast.Number "0"))
           (ast.BinOp "<" id_x (ast.Number "3"))
           ast.PyNone
           (ast.EmptyStatement ";")
           init "x = 0" "x < 3" "" ";"); reflexivity.
Defined.

(** ** [Debugger] *)

(** C6, as stated, fails: the text is not fixed, it is the value the node
    stores: two [Debugger] nodes with different values render differently. *)
Lemma C6_debugger_text_follows_value :
  to_ecma sample_addr (ast.Debugger "debugger") = Ok "debugger;" /\
  to_ecma sample_addr (ast.Debugger "halt") = Ok "halt;" /\
  to_ecma sample_addr (ast.Debugger "debugger")
  <> to_ecma sample_addr (ast.Debugger "halt").
Proof. repeat split; [vm_compute; discriminate]. Qed.

(** C6, amended: a [Debugger] node renders to the value it stores followed
    by ';' (the terminator is fixed, the text before it is the node's
    value), and the visitor is left as it was. *)
Theorem C6_debugger_renders_value
    (addr_of : ast.node -> string) (value : string) (self : ECMAVisitor) :
  visit addr_of (ast.Debugger value) self = (Ok (value ++ ";"), self).
Proof. reflexivity. Qed.

(** ** [Return] *)

(** C7: a [Return] node without an expression renders to the current
    indentation followed by "return;", and one with an expression that
    renders to [e] to the current indentation followed by "return e;"; with
    a fresh visitor (zero indentation) these are exactly "return;" and
    "return e;". *)
Theorem C7_return_renders
    (addr_of : ast.node -> string) (expr : ast.node) (self : ECMAVisitor) :
  (ast.is_None expr = true ->
   visit addr_of (ast.Return expr) self
   = (Ok (indent_text (indent_level self) ++ "return;"), self)) /\
  (forall e, ast.is_None expr = false ->
   fst (visit addr_of expr self) = Ok e ->
   visit addr_of (ast.Return expr) self
   = (Ok (indent_text (indent_level self) ++ "return " ++ e ++ ";"), self)) /\
  (ast.is_None expr = true ->
   visit addr_of (ast.Return expr) init = (Ok "return;", init)) /\
  (forall e, ast.is_None expr = false ->
   fst (visit addr_of expr init) = Ok e ->
   visit addr_of (ast.Return expr) init = (Ok ("return " ++ e ++ ";"), init)).
Proof.
  assert (G : forall s : ECMAVisitor,
             (ast.is_None expr = true ->
              visit addr_of (ast.Return expr) s
              = (Ok (indent_text (indent_level s) ++ "return;"), s)) /\
             (forall e, ast.is_None expr = false ->
              fst (visit addr_of expr s) = Ok e ->
              visit addr_of (ast.Return expr) s
              = (Ok (indent_text (indent_level s) ++ "return " ++ e ++ ";"), s))).
  { intro s.
    rewrite (visit_registered addr_of (ast.Return expr) r_Return eq_refl).
    cbv [call visit_Return]. unfold bind, make_indent, ret.
    split.
    - intros ->. reflexivity.
    - intros e -> He. apply visit_returns in He. rewrite He. reflexivity. }
  destruct (G self) as [G1 G2]. destruct (G init) as [G3 G4].
  repeat split; assumption.
Qed.

Lemma C7_return_renders_witness :
  ast.is_None id_x = false /\
  fst (visit sample_addr id_x init) = Ok "x" /\
  visit sample_addr (ast.Return id_x) init = (Ok "return x;", init).
Proof.
  split; [reflexivity |]. split; [reflexivity |].
  apply (proj2 (proj2 (proj2 (C7_return_renders sample_addr id_x init))) "x");
    reflexivity.
Defined.

(** ** [VarStatement] *)

(** C8: the [VarStatement] with the declarators [a] (no initializer) and
    [b = 1] renders, with a fresh visitor, to exactly "var a, b = 1;"; at
    any level the text is the current indentation, 'var ', the declarators
    joined by ', ' and ';', and a declarator is its identifier, followed by
    ' = <initializer>' only when there is an initializer. *)
Theorem C8_var_statement_renders (addr_of : ast.node -> string) :
  visit addr_of var_a_b_1 init = (Ok "var a, b = 1;", init) /\
  (forall self,
     visit addr_of var_a_b_1 self
     = (Ok (indent_text (indent_level self)
            ++ "var " ++ join ", " ["a"; "b = 1"] ++ ";"), self)) /\
  (forall self,
     visit addr_of (ast.VarDecl (ast.Identifier "a") ast.PyNone) self
     = (Ok "a", self)) /\
  (forall self,
     visit addr_of (ast.VarDecl (ast.Identifier "b") (ast.Number "1")) self
     = (Ok "b = 1", self)).
Proof. repeat split; reflexivity. Qed.

(** ** Determinism *)




(** ** The shape of a [Block] *)

(** C10, as stated, fails in its last part: a [Block] emits the current
    indentation before '{' as well, so at level 2 the empty block renders
    to "  {\n  \n}" and not to "{\n  \n}". *)
Lemma C10_empty_block_has_leading_indentation :
  visit sample_addr (ast.Block []) (mkECMAVisitor 2)
  = (Ok ("  {" ++ nl ++ "  " ++ nl ++ "}"), mkECMAVisitor 2) /\
  fst (visit sample_addr (ast.Block []) (mkECMAVisitor 2))
  <> Ok ("{" ++ nl ++ indent_text 2 ++ nl ++ "}").
Proof. split; [reflexivity | vm_compute; discriminate]. Qed.

(** C10, amended: whenever the rendering of a [Block] returns, at any
    level, the text is the outer indentation, '{', a newline, the children
    rendered one level deeper and joined by newlines, then directly the
    outer indentation, a newline and '}' (so the closing brace starts its
    line), and the counter is restored; a [Block] with zero statements
    renders to the outer indentation, '{', newline, the outer indentation,
    newline, '}'. *)
Theorem C10_block_shape
    (addr_of : ast.node -> string) (children : list ast.node)
    (self : ECMAVisitor) :
  (forall text self',
     visit addr_of (ast.Block children) self = (Ok text, self') ->
     self' = self /\
     exists parts,
       fst (mapM (visit addr_of) children
              (mkECMAVisitor (indent_level self + 2))) = Ok parts /\
       text = indent_text (indent_level self) ++ "{" ++ nl
              ++ join nl parts
              ++ indent_text (indent_level self) ++ nl ++ "}") /\
  visit addr_of (ast.Block []) self
  = (Ok (indent_text (indent_level self) ++ "{" ++ nl
         ++ indent_text (indent_level self) ++ nl ++ "}"), self).
Proof.
  split.
  - intros text self' H.
    split; [exact (visit_keeps addr_of _ _ _ _ H) |].
    rewrite (visit_registered addr_of (ast.Block children) r_Block eq_refl) in H.
    cbv [call visit_Block] in H.
    unfold bind, make_indent, add_indent, ret in H.
    destruct (mapM (visit addr_of) children
                (mkECMAVisitor (indent_level self + 2)))
      as [[parts | e] s1] eqn:E; [| discriminate H].
    exists parts. split; [reflexivity |].
    apply mapM_visit_keeps in E. subst s1. simpl in H.
    injection H as <- _.
    replace (indent_level self + 2 + -2) with (indent_level self) by lia.
    rewrite !append_assoc. reflexivity.
  - rewrite (visit_registered addr_of (ast.Block []) r_Block eq_refl).
    cbv [call visit_Block mapM].
    unfold bind, make_indent, add_indent, ret. simpl indent_level.
    replace (indent_level self + 2 + -2) with (indent_level self) by lia.
    destruct self as [level]. simpl. rewrite !append_assoc. reflexivity.
Qed.

Lemma C10_block_shape_witness :
  visit sample_addr (ast.Block [ast.Return id_x]) (mkECMAVisitor 2)
  = (Ok ("  {" ++ nl ++ "    return x;  " ++ nl ++ "}"), mkECMAVisitor 2) /\
  mkECMAVisitor 2 = mkECMAVisitor 2.
Proof.
  split; [reflexivity |].
  apply (proj1 (C10_block_shape sample_addr [ast.Return id_x] (mkECMAVisitor 2))
           ("  {" ++ nl ++ "    return x;  " ++ nl ++ "}") (mkECMAVisitor 2)).
  reflexivity.
Defined.

(** * Further properties of the visitor *)

(** ** Rendering a tree of well-kinded objects never raises *)

Lemma runs_ret {A} (a : A) : runs (ret a).
Proof. intro self. now exists a, self. Qed.

Lemma runs_make_indent : runs make_indent.
Proof. intro self. now exists (indent_text (indent_level self)), self. Qed.

Lemma runs_add_indent d : runs (add_indent d).
Proof. intro self. now exists tt, (mkECMAVisitor (indent_level self + d)). Qed.

Lemma runs_bind {A B} (m : M A) (k : A -> M B) :
  runs m -> (forall a, runs (k a)) -> runs (bind m k).
Proof.
  intros Hm Hk self. unfold bind.
  destruct (Hm self) as (a & s1 & ->). apply Hk.
Qed.

Lemma runs_mapM {A B} (f : A -> M B) (xs : list A) :
  Forall (fun x => runs (f x)) xs -> runs (mapM f xs).
Proof.
  induction 1 as [| x rest Hx _ IH]; simpl; [apply runs_ret |].
  apply runs_bind; [exact Hx | intro y].
  apply runs_bind; [exact IH | intro ys; apply runs_ret].
Qed.

Lemma runs_for_each {A} (f : A -> M string) (xs : list A) :
  Forall (fun x => runs (f x)) xs -> forall s, runs (for_each f xs s).
Proof.
  induction 1 as [| x rest Hx _ IH]; intro s; simpl; [apply runs_ret |].
  apply runs_bind; [exact Hx | intro y; apply IH].
Qed.

Section Totality.

Variable addr_of : ast.node -> string.

Lemma total_children xs :
  list_all ast.node (total addr_of) xs -> forallb renderable xs = true ->
  Forall (fun x => runs (visit addr_of x)) xs.
Proof.
  intro H. induction H as [| x Hx rest _ IH]; simpl; intro R; constructor.
  - apply andb_prop in R. apply Hx, R.
  - apply IH. apply andb_prop in R. apply R.
Qed.

Lemma total_cases xs :
  list_all ast.node (total addr_of) xs ->
  forallb (fun c => match c with ast.Case _ _ => renderable c | _ => false end)
    xs = true ->
  Forall (fun x => runs (visit_Case (visit addr_of) x)) xs.
Proof.
  intro H. induction H as [| x Hx rest _ IH]; simpl; intro R; constructor.
  - apply andb_prop in R. destruct R as [R _].
    destruct x; try discriminate R. apply (Hx R).
  - apply IH. apply andb_prop in R. apply R.
Qed.

Lemma total_default d :
  total addr_of d ->
  match d with
  | ast.PyNone => true
  | ast.Default _ => renderable d
  | _ => false
  end = true ->
  ast.is_None d = false ->
  runs (visit_Default (visit addr_of) d).
Proof. intros H R N. destruct d; try discriminate. apply (H R). Qed.

Lemma runs_label l :
  match l with ast.PyNone | ast.Identifier _ => true | _ => false end = true ->
  ast.is_None l = false ->
  runs (visit_Identifier addr_of l).
Proof. destruct l; try discriminate; intros _ _; apply runs_ret. Qed.

Ltac conjuncts :=
  repeat match goal with
         | H : _ && _ = true |- _ => apply andb_prop in H; destruct H
         end.

Ltac runs_step :=
  cbv beta iota zeta;
  lazymatch goal with
  | |- runs (visit addr_of ?x) =>
      match goal with IH : total _ x |- _ => apply IH; assumption end
  | |- runs (visit_Identifier addr_of ?x) => apply runs_label; assumption
  | |- runs (visit_Default (visit addr_of) ?x) =>
      apply total_default; assumption
  | |- runs (bind _ _) => apply runs_bind; [ | intro ]
  | |- runs (if negb (ast.is_None ?x) then _ else _) =>
      let E := fresh "E" in
      destruct (ast.is_None x) eqn:E; simpl negb
  | |- runs (if ?b then _ else _) => destruct b
  | |- runs (mapM _ _) => apply runs_mapM; apply total_children; assumption
  | |- runs (for_each _ _ _) =>
      apply runs_for_each; apply total_cases; assumption
  | |- runs (ret _) => apply runs_ret
  | |- runs make_indent => apply runs_make_indent
  | |- runs (add_indent _) => apply runs_add_indent
  end.

Ltac unfold_runs :=
  cbv [call];
  lazymatch goal with
  | |- runs ?m => let h := head_of m in unfold h
  end.

Lemma total_None : total addr_of ast.PyNone.
Proof. intros _. split; [apply runs_ret | exact I]. Qed.

Lemma total_Other cls : total addr_of (ast.Other cls).
Proof.
  intro R. simpl in R. apply negb_true_iff in R.
  split; [| exact I].
  rewrite (visit_unregistered addr_of (ast.Other cls) R). apply runs_ret.
Qed.

Lemma total_all (n : ast.node) : total addr_of n.
Proof.
  induction n using ast.node_ind;
    first [ apply total_None | apply total_Other | idtac ];
    intro R; cbn [renderable] in R; conjuncts;
    (split;
     [ rewrite visit_unfold;
       lazymatch goal with
       | |- context [getattr ?name methods] =>
           let r := eval vm_compute in (getattr name methods) in
           change (getattr name methods) with r
       end; cbv beta iota
     | try exact I ]; unfold_runs; repeat runs_step).
Qed.

Lemma renderable_renders n self :
  renderable n = true -> exists text, visit addr_of n self = (Ok text, self).
Proof.
  intro R. destruct (proj1 (total_all n R) self) as (text & self' & H).
  exists text. now rewrite (visit_keeps addr_of _ _ _ _ H) in H.
Qed.

End Totality.

(** X1: rendering never raises on a tree in which every object that the
    render reaches is [None], an object of a class without a rule, or a
    node that carries the fields of its class, with identifiers as labels
    and clauses as the cases and the default of a switch: [visit] returns a
    text and leaves the visitor as it was.  A missing child or a kind
    without a rule is rendered by the fallback instead of failing. *)
Theorem X1_renderable_tree_never_raises
    (addr_of : ast.node -> string) (tree : ast.node) (self : ECMAVisitor) :
  renderable tree = true ->
  exists text, visit addr_of tree self = (Ok text, self).
Proof. apply renderable_renders. Qed.

Lemma X1_renderable_tree_never_raises_witness :
  renderable (ast.For ast.PyNone ast.PyNone ast.PyNone
                (ast.Block [ast.Other "Regex"])) = true /\
  exists text,
    visit sample_addr
      (ast.For ast.PyNone ast.PyNone ast.PyNone
         (ast.Block [ast.Other "Regex"])) init
    = (Ok text, init).
Proof.
  split; [reflexivity |].
  apply (X1_renderable_tree_never_raises sample_addr
           (ast.For ast.PyNone ast.PyNone ast.PyNone
              (ast.Block [ast.Other "Regex"])) init).
  reflexivity.
Defined.

(** ** A failing render never leaves the counter below its start *)

Lemma outcome_ret {A} (a : A) self Qok Qerr :
  Qok a self -> outcome (ret a) self Qok Qerr.
Proof. intro H; exact H. Qed.

Lemma outcome_raise {A} e self (Qok : A -> ECMAVisitor -> Prop) Qerr :
  Qerr e self -> outcome (raise e) self Qok Qerr.
Proof. intro H; exact H. Qed.

Lemma outcome_bind {A B} (m : M A) (k : A -> M B) self Qok Qerr :
  outcome m self (fun a self' => outcome (k a) self' Qok Qerr) Qerr ->
  outcome (bind m k) self Qok Qerr.
Proof.
  unfold outcome, bind. destruct (m self) as [[a | e] self']; auto.
Qed.

Lemma outcome_conseq {A} (m : M A) self (Qok Qok' : A -> ECMAVisitor -> Prop)
    (Qerr Qerr' : exn -> ECMAVisitor -> Prop) :
  outcome m self Qok Qerr ->
  (forall a self', Qok a self' -> Qok' a self') ->
  (forall e self', Qerr e self' -> Qerr' e self') ->
  outcome m self Qok' Qerr'.
Proof.
  unfold outcome. destruct (m self) as [[a | e] self']; auto.
Qed.

Lemma outcome_make_indent self Qok Qerr :
  Qok (indent_text (indent_level self)) self ->
  outcome make_indent self Qok Qerr.
Proof. intro H; exact H. Qed.

Lemma outcome_add_indent d self Qok Qerr :
  Qok tt (mkECMAVisitor (indent_level self + d)) ->
  outcome (add_indent d) self Qok Qerr.
Proof. intro H; exact H. Qed.

Lemma not_below_mapM {A B} (f : A -> M B) (xs : list A) :
  Forall (fun x => not_below (f x)) xs -> not_below (mapM f xs).
Proof.
  induction 1 as [| x rest Hx _ IH]; intro self; simpl.
  - now apply outcome_ret.
  - apply outcome_bind. eapply outcome_conseq; [apply Hx | | auto].
    intros y self' ->. apply outcome_bind.
    eapply outcome_conseq; [apply IH | | auto].
    intros ys self' ->. now apply outcome_ret.
Qed.

Lemma not_below_for_each {A} (f : A -> M string) (xs : list A) :
  Forall (fun x => not_below (f x)) xs -> forall s, not_below (for_each f xs s).
Proof.
  induction 1 as [| x rest Hx _ IH]; intros s self; simpl.
  - now apply outcome_ret.
  - apply outcome_bind. eapply outcome_conseq; [apply Hx | | auto].
    intros y self' ->. apply IH.
Qed.

Ltac level_goal := cbv beta iota zeta; simpl in *; lia.

Ltac outcome_step :=
  cbv beta iota zeta;
  lazymatch goal with
  | |- outcome (bind _ _) _ _ _ => apply outcome_bind
  | |- outcome (ret _) _ _ _ => apply outcome_ret
  | |- outcome (raise _) _ _ _ => apply outcome_raise; level_goal
  | |- outcome (no_attribute _ _) _ _ _ => apply outcome_raise; level_goal
  | |- outcome (not_iterable _) _ _ _ => apply outcome_raise; level_goal
  | |- outcome make_indent _ _ _ => apply outcome_make_indent
  | |- outcome (add_indent _) _ _ _ => apply outcome_add_indent
  | |- outcome (if ?b then _ else _) _ _ _ => destruct b
  | |- outcome (mapM _ _) _ _ _ =>
      eapply outcome_conseq;
      [ apply not_below_mapM; eassumption
      | intros ? ? ->
      | intros ? ? ?; level_goal ]
  | |- outcome (for_each _ _ _) _ _ _ =>
      eapply outcome_conseq;
      [ apply not_below_for_each; eassumption
      | intros ? ? ->
      | intros ? ? ?; level_goal ]
  | |- outcome ?m _ _ _ =>
      eapply outcome_conseq;
      [ match goal with H : not_below m |- _ => apply H end
      | intros ? ? ->
      | intros ? ? ?; level_goal ]
  end.

Ltac outcome_done :=
  cbv beta iota zeta;
  lazymatch goal with
  | |- @eq ECMAVisitor _ _ => simpl; try reflexivity; f_equal; lia
  end.

Ltac unfold_outcome :=
  cbv [call];
  lazymatch goal with
  | |- outcome ?m _ _ _ => let h := head_of m in unfold h
  end.

Section NotBelow.

Variable addr_of : ast.node -> string.

Lemma not_below_children (xs : list ast.node) :
  list_all ast.node (not_below_all addr_of) xs ->
  Forall (fun x => not_below (visit addr_of x)) xs /\
  Forall (fun x => not_below (visit_Case (visit addr_of) x)) xs.
Proof.
  intro H; split; eapply list_all_Forall; try exact H; intros x Hx; apply Hx.
Qed.

Ltac split_not_below :=
  repeat match goal with
         | H : not_below_all _ _ |- _ => destruct H as (? & ? & ? & ?)
         | H : list_all _ _ _ |- _ =>
             apply not_below_children in H; destruct H as (? & ?)
         end.

Lemma not_below_Other cls : not_below_all addr_of (ast.Other cls).
Proof.
  refine (conj _ (conj _ (conj _ _))); intros [level].
  - rewrite visit_unfold.
    destruct (getattr _ methods) as [r |].
    + destruct r; unfold_outcome; repeat outcome_step; try outcome_done.
    + unfold_outcome; repeat outcome_step; try outcome_done.
  - unfold_outcome; repeat outcome_step; try outcome_done.
  - unfold_outcome; repeat outcome_step; try outcome_done.
  - unfold_outcome; repeat outcome_step; try outcome_done.
Qed.

Lemma not_below_every (n : ast.node) : not_below_all addr_of n.
Proof.
  induction n using ast.node_ind;
    try apply not_below_Other;
    split_not_below;
    (refine (conj _ (conj _ (conj _ _))); intros [level];
     [ rewrite visit_unfold;
       lazymatch goal with
       | |- context [getattr ?name methods] =>
           let r := eval vm_compute in (getattr name methods) in
           change (getattr name methods) with r
       end; cbv beta iota
     | | | ]; unfold_outcome; repeat outcome_step; try outcome_done).
Qed.

Lemma visit_not_below node self r self' :
  visit addr_of node self = (r, self') ->
  indent_level self <= indent_level self'.
Proof.
  intro H. pose proof (proj1 (not_below_every node) self) as K.
  unfold outcome in K. rewrite H in K.
  destruct r; [subst self'; lia | exact K].
Qed.

End NotBelow.

(** X2: whatever a call to [visit] does, return or raise, the counter it
    leaves is not below the one it started from: a failure can leave
    increments behind but never a decrement. *)
Theorem X2_counter_never_below_start
    (addr_of : ast.node -> string) (node : ast.node)
    (self self' : ECMAVisitor) (r : result string) :
  visit addr_of node self = (r, self') ->
  indent_level self <= indent_level self'.
Proof. apply visit_not_below. Qed.

Lemma X2_counter_never_below_start_witness :
  visit sample_addr (ast.Switch id_x [ast.PyNone] ast.PyNone) (mkECMAVisitor 6)
  = (Raise (AttributeError "NoneType" "expr"), mkECMAVisitor 8) /\
  indent_level (mkECMAVisitor 6) <= indent_level (mkECMAVisitor 8).
Proof.
  split; [reflexivity |].
  apply (X2_counter_never_below_start sample_addr
           (ast.Switch id_x [ast.PyNone] ast.PyNone)
           (mkECMAVisitor 6) (mkECMAVisitor 8)
           (Raise (AttributeError "NoneType" "expr"))).
  reflexivity.
Defined.

(** ** The indentation text *)

Lemma repeat_str_length n : String.length (repeat_str " " n) = n.
Proof. induction n as [| n IH]; simpl; [reflexivity | now rewrite IH]. Qed.

Lemma repeat_str_add n m :
  repeat_str " " (n + m) = repeat_str " " n ++ repeat_str " " m.
Proof. induction n as [| n IH]; simpl; [reflexivity | now rewrite IH]. Qed.

(** X3: the indentation text of a level has as many characters as the
    level, is empty for a level that is zero or negative, and the text of a
    sum of two non-negative levels is the two texts one after the other. *)
Theorem X3_indent_text_length (level : Z) :
  String.length (indent_text level) = Z.to_nat level /\
  (level <= 0 -> indent_text level = "") /\
  (forall deeper, 0 <= level -> 0 <= deeper ->
     indent_text (level + deeper) = indent_text level ++ indent_text deeper).
Proof.
  unfold indent_text. split; [apply repeat_str_length |]. split.
  - intro H. replace (Z.to_nat level) with O by lia. reflexivity.
  - intros deeper H1 H2. rewrite Z2Nat.inj_add by assumption.
    apply repeat_str_add.
Qed.

Lemma X3_indent_text_length_witness :
  (-4 <= 0 /\ indent_text (-4) = "") /\
  (0 <= 2 /\ 0 <= 2 /\ indent_text (2 + 2) = indent_text 2 ++ indent_text 2).
Proof.
  split.
  - split; [lia |]. apply (proj1 (proj2 (X3_indent_text_length (-4)))). lia.
  - split; [lia |]. split; [lia |].
    apply (proj2 (proj2 (X3_indent_text_length 2)) 2); lia.
Defined.

(** ** Statement lists *)

Lemma join_app sep (xs ys : list string) :
  xs <> [] -> ys <> [] ->
  join sep (xs ++ ys) = join sep xs ++ sep ++ join sep ys.
Proof.
  intros Hx Hy. induction xs as [| x [| x' xs] IH]; [now elim Hx | |].
  - destruct ys; [now elim Hy | reflexivity].
  - change (join sep ((x :: x' :: xs) ++ ys))
      with (x ++ sep ++ join sep ((x' :: xs) ++ ys)).
    rewrite IH by discriminate.
    change (join sep (x :: x' :: xs)) with (x ++ sep ++ join sep (x' :: xs)).
    now rewrite !append_assoc.
Qed.

Lemma mapM_app {A B} (f : A -> M B) xs ys self px s1 py s2 :
  mapM f xs self = (Ok px, s1) -> mapM f ys s1 = (Ok py, s2) ->
  mapM f (xs ++ ys) self = (Ok (px ++ py)%list, s2).
Proof.
  revert self px. induction xs as [| x xs IH]; intros self px Hx Hy.
  - injection Hx as <- <-. exact Hy.
  - simpl in Hx |- *. unfold bind in Hx |- *.
    destruct (f x self) as [[y | e] s] eqn:E; [| discriminate].
    destruct (mapM f xs s) as [[pxs | e] s'] eqn:E'; [| discriminate].
    injection Hx as <- <-. now rewrite (IH _ _ E' Hy).
Qed.

Lemma mapM_nonempty {A B} (f : A -> M B) xs self parts self' :
  mapM f xs self = (Ok parts, self') -> xs <> [] -> parts <> [].
Proof.
  destruct xs as [| x xs]; [intros _ H; now elim H |].
  simpl. unfold bind.
  destruct (f x self) as [[y | e] s]; [| discriminate].
  destruct (mapM f xs s) as [[ys | e] s']; [| discriminate].
  intros H _. injection H as <- _. discriminate.
Qed.

Lemma mapM_visit_raises addr_of xs x ys self px self' e s1 :
  mapM (visit addr_of) xs self = (Ok px, self') ->
  visit addr_of x self = (Raise e, s1) ->
  mapM (visit addr_of) (xs ++ x :: ys) self = (Raise e, s1).
Proof.
  revert px self'. induction xs as [| x' xs IH]; intros px self' Hx He.
  - simpl. unfold bind. now rewrite He.
  - simpl in Hx |- *. unfold bind in Hx |- *.
    destruct (visit addr_of x' self) as [[y | e'] s] eqn:E; [| discriminate].
    apply visit_keeps in E. subst s.
    destruct (mapM (visit addr_of) xs self) as [[pxs | e'] s'] eqn:E';
      [| discriminate].
    now rewrite (IH pxs s' eq_refl He).
Qed.

Lemma mapM_visit_returns addr_of xs self :
  Forall (fun c => exists t, fst (visit addr_of c self) = Ok t) xs ->
  exists parts, mapM (visit addr_of) xs self = (Ok parts, self).
Proof.
  induction 1 as [| x xs [t Hx] _ [parts IH]]; [now exists [] |].
  exists (t :: parts). simpl. unfold bind.
  now rewrite (visit_returns addr_of _ _ _ Hx), IH.
Qed.

Lemma visit_Program_eq addr_of children :
  visit addr_of (ast.Program children)
  = (parts <- mapM (visit addr_of) children ;; ret (join nl parts)).
Proof. reflexivity. Qed.

(** X4: a [Program] renders to its statements' texts joined by newlines:
    the empty program renders to the empty text, and the render of two
    non-empty statement lists put together is the render of the first, a
    newline and the render of the second. *)
Theorem X4_program_concatenation
    (addr_of : ast.node -> string) (xs ys : list ast.node)
    (self : ECMAVisitor) (tx ty : string) :
  visit addr_of (ast.Program []) self = (Ok "", self) /\
  (xs <> [] -> ys <> [] ->
   fst (visit addr_of (ast.Program xs) self) = Ok tx ->
   fst (visit addr_of (ast.Program ys) self) = Ok ty ->
   visit addr_of (ast.Program (xs ++ ys)) self = (Ok (tx ++ nl ++ ty), self)).
Proof.
  split; [reflexivity |].
  intros Nx Ny Hx Hy.
  apply visit_returns in Hx, Hy.
  rewrite visit_Program_eq in Hx, Hy |- *. unfold bind, ret in Hx, Hy |- *.
  destruct (mapM (visit addr_of) xs self) as [[px | e] s1] eqn:Ex;
    [| discriminate].
  destruct (mapM (visit addr_of) ys self) as [[py | e] s2] eqn:Ey;
    [| discriminate].
  injection Hx as <- ->. injection Hy as <- ->.
  rewrite (mapM_app _ _ _ _ _ _ _ _ Ex Ey).
  rewrite join_app; [reflexivity | |].
  - exact (mapM_nonempty _ _ _ _ _ Ex Nx).
  - exact (mapM_nonempty _ _ _ _ _ Ey Ny).
Qed.

Lemma X4_program_concatenation_witness :
  [ast.Return id_x] <> [] /\ [ast.Break ast.PyNone] <> [] /\
  fst (visit sample_addr (ast.Program [ast.Return id_x]) init)
  = Ok "return x;" /\
  fst (visit sample_addr (ast.Program [ast.Break ast.PyNone]) init)
  = Ok "break;" /\
  visit sample_addr
    (ast.Program ([ast.Return id_x] ++ [ast.Break ast.PyNone])) init
  = (Ok ("return x;" ++ nl ++ "break;"), init).
Proof.
  split; [discriminate |]. split; [discriminate |].
  split; [reflexivity |]. split; [reflexivity |].
  apply (proj2 (X4_program_concatenation sample_addr
                  [ast.Return id_x] [ast.Break ast.PyNone] init
                  "return x;" "break;"));
    first [discriminate | reflexivity].
Defined.

(** X9: no rule catches an exception.  When a statement of a [Program]
    raises after the statements before it have rendered, the [Program]
    raises the same exception and leaves the visitor as that statement left
    it; the statements after it are not rendered. *)
Theorem X9_program_propagates_failure
    (addr_of : ast.node -> string) (before after : list ast.node)
    (failing : ast.node) (self failed : ECMAVisitor) (e : exn) :
  Forall (fun c => exists t, fst (visit addr_of c self) = Ok t) before ->
  visit addr_of failing self = (Raise e, failed) ->
  visit addr_of (ast.Program (before ++ failing :: after)) self
  = (Raise e, failed).
Proof.
  intros Hb Hf. destruct (mapM_visit_returns addr_of before self Hb) as [px Hx].
  rewrite visit_Program_eq. unfold bind.
  now rewrite (mapM_visit_raises addr_of _ _ after _ _ _ _ _ Hx Hf).
Qed.

Lemma X9_program_propagates_failure_witness :
  Forall (fun c => exists t, fst (visit sample_addr c init) = Ok t)
    [ast.Return id_x] /\
  visit sample_addr (ast.Switch id_x [ast.PyNone] ast.PyNone) init
  = (Raise (AttributeError "NoneType" "expr"), mkECMAVisitor 2) /\
  visit sample_addr
    (ast.Program ([ast.Return id_x]
                  ++ ast.Switch id_x [ast.PyNone] ast.PyNone
                  :: [ast.Other "Regex"])) init
  = (Raise (AttributeError "NoneType" "expr"), mkECMAVisitor 2).
Proof.
  assert (H : Forall (fun c => exists t, fst (visit sample_addr c init) = Ok t)
                [ast.Return id_x]).
  { constructor; [now exists "return x;" | constructor]. }
  split; [exact H |]. split; [reflexivity |].
  apply (X9_program_propagates_failure sample_addr
           [ast.Return id_x] [ast.Other "Regex"]
           (ast.Switch id_x [ast.PyNone] ast.PyNone)
           init (mkECMAVisitor 2) (AttributeError "NoneType" "expr") H).
  reflexivity.
Defined.

(** ** Where the indentation goes *)

Lemma post_weak {A} (m : M A) self (Q : A -> ECMAVisitor -> Prop) :
  (forall a self', Q a self') -> post m self Q.
Proof. intro H. unfold post. destruct (m self) as [[a | e] self']; auto. Qed.

Lemma for_each_extends {A} (f : A -> M string) xs s self :
  post (for_each f xs s) self (fun t _ => exists rest, t = s ++ rest).
Proof.
  revert s self. induction xs as [| x xs IH]; intros s self; simpl.
  - apply post_ret. exists "". clear. induction s; simpl; congruence.
  - apply post_bind. apply post_weak. intros r self'.
    eapply post_conseq; [apply IH |].
    intros t _ [rest ->]. exists (r ++ rest). apply append_assoc.
Qed.

Lemma prefix_extends p s rest :
  String.prefix p s = true -> String.prefix p (s ++ rest) = true.
Proof.
  revert s. induction p as [| c p IH]; intros s H; [now destruct (s ++ rest) |].
  destruct s as [| c' s]; [discriminate |]. simpl in H |- *.
  destruct (ascii_dec c c'); [now apply IH | discriminate].
Qed.

Ltac starts_with :=
  repeat match goal with
         | |- context [if ?c then _ else _] => destruct c
         end;
  repeat first
    [ apply prefix_append
    | apply prefix_extends ].

Ltac shape_step :=
  cbv beta iota zeta;
  lazymatch goal with
  | |- post (bind _ _) _ _ => apply post_bind
  | |- post (ret _) _ _ => apply post_ret
  | |- post (raise _) _ _ => apply post_raise
  | |- post (no_attribute _ _) _ _ => apply post_raise
  | |- post (not_iterable _) _ _ => apply post_raise
  | |- post make_indent _ _ => apply post_make_indent
  | |- post (add_indent _) _ _ => apply post_add_indent
  | |- post (if ?b then _ else _) _ _ => destruct b
  | |- post (for_each _ _ _) _ _ =>
      eapply post_conseq; [ apply for_each_extends | intros ? ? [? ->] ]
  | |- post _ _ _ => apply post_weak; intros ? ?
  end.

Lemma own_indentation_first addr_of n self :
  own_indentation n = true ->
  post (visit addr_of n) self
    (fun text _ => String.prefix (indent_text (indent_level self)) text = true).
Proof.
  intro H. destruct n; try discriminate H; clear H;
    dispatch; unfold_rule; repeat shape_step; starts_with.
Qed.

(** X5: a node of a kind whose rule calls [_make_indent] first ([Block],
    [VarStatement], [Assign], [EmptyStatement], [Continue], [Break],
    [Return], [With], [Label], [Switch], [Case], [Default], [Throw], [Try],
    [Catch], [Finally]) renders, at any level, to a text that starts with
    the indentation of that level, wherever the node sits in the tree. *)
Theorem X5_own_indentation_comes_first
    (addr_of : ast.node -> string) (node : ast.node)
    (self self' : ECMAVisitor) (text : string) :
  own_indentation node = true ->
  visit addr_of node self = (Ok text, self') ->
  String.prefix (indent_text (indent_level self)) text = true.
Proof.
  intros H V.
  exact (post_elim _ _ _ _ _ (own_indentation_first addr_of node self H) V).
Qed.

Lemma X5_own_indentation_comes_first_witness :
  own_indentation (ast.Assign "=" id_x (ast.Number "0")) = true /\
  visit sample_addr (ast.Assign "=" id_x (ast.Number "0")) (mkECMAVisitor 4)
  = (Ok "    x = 0", mkECMAVisitor 4) /\
  String.prefix (indent_text (indent_level (mkECMAVisitor 4))) "    x = 0" = true.
Proof.
  split; [reflexivity |]. split; [reflexivity |].
  apply (X5_own_indentation_comes_first sample_addr
           (ast.Assign "=" id_x (ast.Number "0"))
           (mkECMAVisitor 4) (mkECMAVisitor 4) "    x = 0");
    reflexivity.
Defined.

Lemma keyword_first addr_of n self keyword :
  match n with
  | ast.If _ _ _ => keyword = "if ("
  | ast.For _ _ _ _ | ast.ForIn _ _ _ => keyword = "for ("
  | ast.While _ _ => keyword = "while ("
  | ast.DoWhile _ _ => keyword = "do "
  | _ => False
  end ->
  post (visit addr_of n) self
    (fun text _ => String.prefix keyword text = true).
Proof.
  intro H. destruct n; try contradiction; subst keyword;
    dispatch; unfold_rule; repeat shape_step; starts_with.
Qed.

(** X6: [If], [For], [ForIn], [While] and [DoWhile] emit no indentation of
    their own: at every level, also inside a block, their text starts with
    the keyword itself. *)
Theorem X6_control_statements_start_with_keyword
    (addr_of : ast.node -> string) (self self' : ECMAVisitor) (text : string) :
  (forall p c a, visit addr_of (ast.If p c a) self = (Ok text, self') ->
     String.prefix "if (" text = true) /\
  (forall i c k b, visit addr_of (ast.For i c k b) self = (Ok text, self') ->
     String.prefix "for (" text = true) /\
  (forall x y b, visit addr_of (ast.ForIn x y b) self = (Ok text, self') ->
     String.prefix "for (" text = true) /\
  (forall p b, visit addr_of (ast.While p b) self = (Ok text, self') ->
     String.prefix "while (" text = true) /\
  (forall p b, visit addr_of (ast.DoWhile p b) self = (Ok text, self') ->
     String.prefix "do " text = true).
Proof.
  repeat split; intros;
    match goal with
    | V : visit _ ?n _ = _ |- String.prefix ?k _ = true =>
        exact (post_elim _ _ _ _ _ (keyword_first addr_of n self k eq_refl) V)
    end.
Qed.

Lemma X6_control_statements_start_with_keyword_witness :
  visit sample_addr (ast.While id_x (ast.Block [])) (mkECMAVisitor 2)
  = (Ok ("while (x)   {" ++ nl ++ "  " ++ nl ++ "}"), mkECMAVisitor 2) /\
  String.prefix "while (" ("while (x)   {" ++ nl ++ "  " ++ nl ++ "}") = true.
Proof.
  split; [reflexivity |].
  apply (proj1 (proj2 (proj2 (proj2
           (X6_control_statements_start_with_keyword sample_addr
              (mkECMAVisitor 2) (mkECMAVisitor 2)
              ("while (x)   {" ++ nl ++ "  " ++ nl ++ "}")))))
           id_x (ast.Block [])).
  reflexivity.
Defined.

(** ** Clauses of a [Switch] *)

Lemma visit_Case_ends_with_newline addr_of expr elements self :
  post (visit_Case (visit addr_of) (ast.Case expr elements)) self
    (fun text _ => exists body, text = body ++ nl).
Proof.
  unfold visit_Case. repeat shape_step.
  match goal with |- context [if ?c then _ else _] => destruct c end.
  - eexists. rewrite <- !append_assoc. reflexivity.
  - eexists. rewrite <- !append_assoc. reflexivity.
Qed.

(** X7: the text of a [Case] clause always ends with a newline, whether it
    has elements or not (the elements and their newline are left out when
    their joined text is empty). *)
Theorem X7_case_ends_with_newline
    (addr_of : ast.node -> string) (expr : ast.node)
    (elements : list ast.node) (self self' : ECMAVisitor) (text : string) :
  visit addr_of (ast.Case expr elements) self = (Ok text, self') ->
  exists body, text = body ++ nl.
Proof.
  intro V.
  rewrite (visit_registered addr_of (ast.Case expr elements) r_Case eq_refl)
    in V.
  exact (post_elim _ _ _ _ _
           (visit_Case_ends_with_newline addr_of expr elements self) V).
Qed.

Lemma X7_case_ends_with_newline_witness :
  visit sample_addr (ast.Case (ast.Number "1") []) init
  = (Ok ("case 1:" ++ nl), init) /\
  exists body, "case 1:" ++ nl = body ++ nl.
Proof.
  split; [reflexivity |].
  apply (X7_case_ends_with_newline sample_addr (ast.Number "1") []
           init init ("case 1:" ++ nl)).
  reflexivity.
Defined.

Lemma post_for_each_last {A} (f : A -> M string) xs x s self
    (Q : string -> ECMAVisitor -> Prop) :
  (forall s' self', post (f x) self' (fun r self'' => Q (s' ++ r) self'')) ->
  post (for_each f (xs ++ [x]) s) self Q.
Proof.
  intro H. revert s self. induction xs as [| x' xs IH]; intros s self; simpl.
  - apply post_bind. eapply post_conseq; [apply H |].
    intros r self' HQ. apply post_ret. exact HQ.
  - apply post_bind. apply post_weak. intros r self'. apply IH.
Qed.

Lemma switch_closing addr_of expr cases default self :
  post (visit addr_of (ast.Switch expr cases default)) self
    (fun text _ => exists body, text = body ++ nl ++ "}").
Proof.
  dispatch. unfold_rule. repeat shape_step; eexists; reflexivity.
Qed.

Lemma switch_last_case addr_of expr cases e elements self :
  post (visit addr_of
          (ast.Switch expr (cases ++ [ast.Case e elements]) ast.PyNone)) self
    (fun text _ => exists body, text = body ++ nl ++ nl ++ "}").
Proof.
  dispatch. unfold_rule.
  apply post_bind, post_make_indent. cbv beta.
  apply post_bind, post_weak. intros ex s1.
  apply post_bind, post_add_indent. cbv beta zeta.
  apply post_bind, post_for_each_last. intros s' s2.
  eapply post_conseq; [apply visit_Case_ends_with_newline |].
  intros r s3 [body ->]. simpl negb. cbv iota.
  repeat shape_step.
  exists (s' ++ body). rewrite !append_assoc. reflexivity.
Qed.

(** X8: the text of a [Switch] always ends with a newline and a closing
    brace that carries no indentation, at every level; and when its last
    clause is a [Case] (there is no default), an empty line precedes the
    closing brace. *)
Theorem X8_switch_closing_brace
    (addr_of : ast.node -> string) (expr : ast.node)
    (cases : list ast.node) (self self' : ECMAVisitor) (text : string) :
  (forall default,
     visit addr_of (ast.Switch expr cases default) self = (Ok text, self') ->
     exists body, text = body ++ nl ++ "}") /\
  (forall e elements,
     visit addr_of
       (ast.Switch expr (cases ++ [ast.Case e elements]) ast.PyNone) self
     = (Ok text, self') ->
     exists body, text = body ++ nl ++ nl ++ "}").
Proof.
  split.
  - intros default V.
    exact (post_elim _ _ _ _ _ (switch_closing addr_of expr cases default self) V).
  - intros e elements V.
    exact (post_elim _ _ _ _ _
             (switch_last_case addr_of expr cases e elements self) V).
Qed.

Lemma X8_switch_closing_brace_witness :
  visit sample_addr
    (ast.Switch id_x ([] ++ [ast.Case (ast.Number "1") [ast.Break ast.PyNone]])
       ast.PyNone) (mkECMAVisitor 2)
  = (Ok ("  switch (x) {" ++ nl ++ "    case 1:" ++ nl ++ "      break;"
         ++ nl ++ nl ++ "}"), mkECMAVisitor 2) /\
  exists body,
    "  switch (x) {" ++ nl ++ "    case 1:" ++ nl ++ "      break;"
    ++ nl ++ nl ++ "}" = body ++ nl ++ nl ++ "}".
Proof.
  split; [reflexivity |].
  apply (proj2 (X8_switch_closing_brace sample_addr id_x []
                  (mkECMAVisitor 2) (mkECMAVisitor 2)
                  ("  switch (x) {" ++ nl ++ "    case 1:" ++ nl
                   ++ "      break;" ++ nl ++ nl ++ "}"))
           (ast.Number "1") [ast.Break ast.PyNone]).
  reflexivity.
Defined.

(** ** Binary operations *)

Lemma visit_BinOp_eq addr_of op l r :
  visit addr_of (ast.BinOp op l r)
  = (tl <- visit addr_of l ;; tr <- visit addr_of r ;;
     ret (tl ++ " " ++ op ++ " " ++ tr)).
Proof. reflexivity. Qed.

(** X10: no parentheses are ever added: the two ways of nesting two binary
    operations over the same three operands render to the same text, so
    the grouping held by the tree cannot be read back from the text. *)
Theorem X10_binop_grouping_is_lost
    (addr_of : ast.node -> string) (op1 op2 : string) (x y z : ast.node)
    (self : ECMAVisitor) (tx ty tz : string) :
  fst (visit addr_of x self) = Ok tx ->
  fst (visit addr_of y self) = Ok ty ->
  fst (visit addr_of z self) = Ok tz ->
  visit addr_of (ast.BinOp op2 (ast.BinOp op1 x y) z) self
  = (Ok (tx ++ " " ++ op1 ++ " " ++ ty ++ " " ++ op2 ++ " " ++ tz), self) /\
  visit addr_of (ast.BinOp op1 x (ast.BinOp op2 y z)) self
  = (Ok (tx ++ " " ++ op1 ++ " " ++ ty ++ " " ++ op2 ++ " " ++ tz), self).
Proof.
  intros Hx Hy Hz. apply visit_returns in Hx, Hy, Hz.
  rewrite !visit_BinOp_eq. unfold bind, ret.
  rewrite Hx, Hy, Hz. rewrite !append_assoc. split; reflexivity.
Qed.

Lemma X10_binop_grouping_is_lost_witness :
  fst (visit sample_addr (ast.Identifier "a") init) = Ok "a" /\
  fst (visit sample_addr (ast.Identifier "b") init) = Ok "b" /\
  fst (visit sample_addr (ast.Identifier "c") init) = Ok "c" /\
  visit sample_addr
    (ast.BinOp "*" (ast.BinOp "+" (ast.Identifier "a") (ast.Identifier "b"))
       (ast.Identifier "c")) init
  = (Ok "a + b * c", init) /\
  visit sample_addr
    (ast.BinOp "+" (ast.Identifier "a")
       (ast.BinOp "*" (ast.Identifier "b") (ast.Identifier "c"))) init
  = (Ok "a + b * c", init).
Proof.
  repeat (split; [reflexivity |]).
  apply (X10_binop_grouping_is_lost sample_addr "+" "*"
           (ast.Identifier "a") (ast.Identifier "b") (ast.Identifier "c")
           init "a" "b" "c"); reflexivity.
Defined.

(** ** An [Assign] brings its indentation along *)

Lemma prefix_under k p s :
  String.prefix p s = true -> String.prefix (k ++ p) (k ++ s) = true.
Proof.
  intro H. induction k as [| c k IH]; simpl; [exact H |].
  destruct (ascii_dec c c) as [_ | ne]; [exact IH | now elim ne].
Qed.

Lemma for_assign_init addr_of op l r cond count statement self :
  post (visit addr_of (ast.For (ast.Assign op l r) cond count statement)) self
    (fun text _ =>
       String.prefix ("for (" ++ indent_text (indent_level self)) text = true).
Proof.
  dispatch. unfold_rule. apply post_bind.
  eapply post_conseq; [apply own_indentation_first; reflexivity |].
  intros i s1 Hi. cbv beta zeta.
  change (ast.isinstance (ast.Assign op l r) ["Assign"; "Comma"]) with true.
  cbv iota. repeat shape_step;
    rewrite !append_assoc; apply prefix_under, prefix_extends; exact Hi.
Qed.

Lemma expr_statement_assign addr_of op l r self :
  post (visit addr_of (ast.ExprStatement (ast.Assign op l r))) self
    (fun text _ =>
       String.prefix (indent_text (indent_level self)) text = true).
Proof.
  dispatch. unfold_rule. apply post_bind.
  eapply post_conseq; [apply own_indentation_first; reflexivity |].
  intros i s1 Hi. cbv beta. apply post_ret. now apply prefix_extends.
Qed.

(** X11: an [Assign] emits the indentation of the current level wherever
    it stands.  As the expression of an [ExprStatement] it is what indents
    the statement; as the init of a [For] it puts the indentation inside
    the parentheses, right after 'for ('. *)
Theorem X11_assign_indentation_in_context
    (addr_of : ast.node -> string) (op : string) (l r : ast.node)
    (self self' : ECMAVisitor) (text : string) :
  (visit addr_of (ast.ExprStatement (ast.Assign op l r)) self = (Ok text, self') ->
   String.prefix (indent_text (indent_level self)) text = true) /\
  (forall cond count statement,
     visit addr_of (ast.For (ast.Assign op l r) cond count statement) self
     = (Ok text, self') ->
     String.prefix ("for (" ++ indent_text (indent_level self)) text = true).
Proof.
  split.
  - intro V.
    exact (post_elim _ _ _ _ _ (expr_statement_assign addr_of op l r self) V).
  - intros cond count statement V.
    exact (post_elim _ _ _ _ _
             (for_assign_init addr_of op l r cond count statement self) V).
Qed.

Lemma X11_assign_indentation_in_context_witness :
  visit sample_addr
    (ast.For (ast.Assign "=" id_x (ast.Number "0")) ast.PyNone ast.PyNone
       (ast.EmptyStatement ";")) (mkECMAVisitor 2)
  = (Ok "for (  x = 0; ; )   ;", mkECMAVisitor 2) /\
  String.prefix ("for (" ++ indent_text (indent_level (mkECMAVisitor 2)))
    "for (  x = 0; ; )   ;" = true.
Proof.
  split; [reflexivity |].
  apply (proj2 (X11_assign_indentation_in_context sample_addr "="
                  id_x (ast.Number "0") (mkECMAVisitor 2) (mkECMAVisitor 2)
                  "for (  x = 0; ; )   ;")
           ast.PyNone ast.PyNone (ast.EmptyStatement ";")).
  reflexivity.
Defined.

(** ** Statement terminators *)

Ltac ends_with_semicolon :=
  repeat match goal with
         | |- context [if ?c then _ else _] => destruct c
         end;
  try change "return;" with ("return" ++ ";");
  try change "continue;" with ("continue" ++ ";");
  try change "break;" with ("break" ++ ";");
  try change ");" with (")" ++ ";");
  rewrite <- ?append_assoc; eexists; reflexivity.

Lemma terminated_ends addr_of n self :
  terminated n = true ->
  post (visit addr_of n) self (fun text _ => exists body, text = body ++ ";").
Proof.
  intro H. destruct n; try discriminate H; clear H;
    dispatch; unfold_rule; repeat shape_step; ends_with_semicolon.
Qed.

(** X12: the simple statements ([VarStatement], [ExprStatement],
    [DoWhile], [Continue], [Break], [Return], [Throw], [Debugger]) always
    render to a text that ends with ';', with or without their optional
    parts. *)
Theorem X12_simple_statements_end_with_semicolon
    (addr_of : ast.node -> string) (node : ast.node)
    (self self' : ECMAVisitor) (text : string) :
  terminated node = true ->
  visit addr_of node self = (Ok text, self') ->
  exists body, text = body ++ ";".
Proof.
  intros H V.
  exact (post_elim _ _ _ _ _ (terminated_ends addr_of node self H) V).
Qed.

Lemma X12_simple_statements_end_with_semicolon_witness :
  terminated (ast.Continue (ast.Identifier "loop1")) = true /\
  visit sample_addr (ast.Continue (ast.Identifier "loop1")) init
  = (Ok "continue loop1;", init) /\
  exists body, "continue loop1;" = body ++ ";".
Proof.
  split; [reflexivity |]. split; [reflexivity |].
  apply (X12_simple_statements_end_with_semicolon sample_addr
           (ast.Continue (ast.Identifier "loop1")) init init "continue loop1;");
    reflexivity.
Defined.
